(** * Education dashboard: the filter / aggregate / project pipeline

    A shallow embedding of [streamlit_app.py].  The script loads a table,
    reads five widgets and derives two chart tables from them.  Everything
    between the load and the two chart calls is a pure function of the
    loaded table and of the widget values, and that is what is modelled.

    Numbers.  A float64 cell is an exact rational or the null value
    ([None], pandas' NaN).  Rounding and the infinities are outside the
    model; the null value and the way it behaves under comparison, [min],
    [max] and [mean] are inside it. *)

From Stdlib Require Import QArith Qcanon Ascii.
From stdpp Require Import base decidable option list strings numbers sorting.
From stdpp Require Import gmap.

Local Open Scope Qc_scope.

(** ** Python string primitives used by the script *)
Module Py.

(** [c in s] for a one-character [c]. *)
Fixpoint contains (c : ascii) (s : string) : bool :=
  match s with
  | EmptyString => false
  | String a t => if Ascii.eqb a c then true else contains c t
  end.

(** The cut made by [s.rsplit(sep, 1)]: the text before and after the
    LAST occurrence of [sep], or [None] when [sep] does not occur. *)
Fixpoint rcut (sep : ascii) (s : string) : option (string * string) :=
  match s with
  | EmptyString => None
  | String a t =>
      match rcut sep t with
      | Some (p, q) => Some (String a p, q)
      | None => if Ascii.eqb a sep then Some (EmptyString, t) else None
      end
  end.

(** [s.rsplit(sep, 1)]: at most one split, counted from the right. *)
Definition rsplit1 (sep : ascii) (s : string) : list string :=
  match rcut sep s with
  | Some (p, q) => [p; q]
  | None => [s]
  end.

(** [l[-1]] on a list that [rsplit] returned (never empty). *)
Definition item_last (l : list string) : string := List.last l EmptyString.

End Py.

(** ** The pandas operations used by the script *)
Module Pd.

(** A float64 cell; [None] is NaN, which is also pandas' null. *)
Definition cell : Type := option Qc.

(** Elementwise comparisons: any comparison with NaN is [False]. *)
Definition ge (a b : cell) : bool :=
  match a, b with
  | Some x, Some y => bool_decide (y ≤ x)
  | _, _ => false
  end.

Definition le (a b : cell) : bool :=
  match a, b with
  | Some x, Some y => bool_decide (x ≤ y)
  | _, _ => false
  end.

Definition gt (a b : cell) : bool :=
  match a, b with
  | Some x, Some y => bool_decide (y < x)
  | _, _ => false
  end.

(** The non-null values of a column, in row order. *)
Definition notna (col : list cell) : list Qc := omap id col.

Definition Qc_min (x y : Qc) : Qc := if decide (x ≤ y) then x else y.
Definition Qc_max (x y : Qc) : Qc := if decide (x ≤ y) then y else x.

Fixpoint reduce (f : Qc → Qc → Qc) (xs : list Qc) : cell :=
  match xs with
  | [] => None
  | x :: t =>
      match reduce f t with
      | None => Some x
      | Some m => Some (f x m)
      end
  end.

(** [Series.min()], [Series.max()]: nulls are skipped; NaN when nothing
    is left. *)
Definition min (col : list cell) : cell := reduce Qc_min (notna col).
Definition max (col : list cell) : cell := reduce Qc_max (notna col).

Definition sum (xs : list Qc) : Qc := foldr Qcplus 0 xs.

(** [Series.mean()] and the per-group mean of [groupby(...).mean()]:
    the sum of the non-null values over their count (skipna); NaN when
    there is no non-null value. *)
Definition mean (col : list cell) : cell :=
  match notna col with
  | [] => None
  | xs => Some (sum xs / Qc_of_Z (Z.of_nat (length xs)))
  end.

(** [Series.unique()]: the distinct values in order of first
    appearance. *)
Fixpoint unique (l : list string) : list string :=
  match l with
  | [] => []
  | x :: t => x :: filter (λ y, y ≠ x) (unique t)
  end.

(** [Series.isin(values)]. *)
Definition isin (x : string) (values : list string) : bool :=
  bool_decide (x ∈ values).

(** The group keys of [groupby(by)]: rows with a null key are left out
    (dropna), the distinct keys are sorted (sort). *)
Definition group_keys (keys : list (option string)) : list string :=
  merge_sort String.le (unique (omap id keys)).

(** [df.groupby(by)]: one group per key, holding the rows whose key is
    exactly that key, in row order. *)
Definition groupby {A : Type} (by_ : A → option string) (df : list A)
  : list (string * list A) :=
  (λ k, (k, filter (λ r, by_ r = Some k) df)) <$> group_keys (by_ <$> df).

End Pd.

(** ** The script *)
Module App.
Import Pd.

(** One row of the CSV, with the five columns the script reads (a [-] in
    a column name is written [_]). *)
Record Row : Type := mkRow {
  refArea : option string;
  PercentageofSchooldropout : cell;
  PercentageofEducationlevelofresidents_illeterate : cell;
  PercentageofEducationlevelofresidents_university : cell;
  PercentageofEducationlevelofresidents_highereducation : cell
}.

Global Instance Row_eq_dec : EqDecision Row.
Proof. solve_decision. Defined.

(** [df.dropna(subset=[...-highereducation], inplace=True)] *)
Definition dropna (raw : list Row) : list Row :=
  filter
    (λ r, is_Some (PercentageofEducationlevelofresidents_highereducation r))
    raw.

(** The [value=] of a range slider: both ends at the column's extremes. *)
Definition default_dropout_range (df : list Row) : cell * cell :=
  (min (PercentageofSchooldropout <$> df),
   max (PercentageofSchooldropout <$> df)).

Definition default_illiteracy_range (df : list Row) : cell * cell :=
  (min (PercentageofEducationlevelofresidents_illeterate <$> df),
   max (PercentageofEducationlevelofresidents_illeterate <$> df)).

(** The mask of the first [df[...]]. *)
Definition range_mask (dropout_range illiteracy_range : cell * cell)
    (r : Row) : bool :=
  ge (PercentageofSchooldropout r) dropout_range.1
  && le (PercentageofSchooldropout r) dropout_range.2
  && ge (PercentageofEducationlevelofresidents_illeterate r) illiteracy_range.1
  && le (PercentageofEducationlevelofresidents_illeterate r) illiteracy_range.2.

Definition df_range_filtered (df : list Row)
    (dropout_range illiteracy_range : cell * cell) : list Row :=
  filter (λ r, range_mask dropout_range illiteracy_range r) df.

Definition avg_university_percentage (df : list Row) : cell :=
  mean (PercentageofEducationlevelofresidents_university <$> df).

(** [df_filtered] as the rest of the script sees it: the range filter,
    then the threshold filter when the checkbox is ticked. *)
Definition df_filtered (df : list Row)
    (dropout_range illiteracy_range : cell * cell)
    (include_above_avg_university : bool) : list Row :=
  let df_filtered := df_range_filtered df dropout_range illiteracy_range in
  if include_above_avg_university
  then filter
         (λ r, gt (PercentageofEducationlevelofresidents_university r)
                  (avg_university_percentage df))
         df_filtered
  else df_filtered.

(** The two grouped tables: key column first, then the value columns in
    the order the script selects them. *)
Record ScatterRow : Type := mkScatter {
  sc_refArea : string;
  sc_illeterate : cell;
  sc_dropout : cell
}.

Record BoxRow : Type := mkBox {
  bx_refArea : string;
  bx_university : cell
}.

Global Instance ScatterRow_eq_dec : EqDecision ScatterRow.
Proof. solve_decision. Defined.
Global Instance BoxRow_eq_dec : EqDecision BoxRow.
Proof. solve_decision. Defined.

(** [lambda x: x.rsplit('/', 1)[-1] if pd.notna(x) and '/' in x else x],
    applied to a key that [astype(str)] has made a string ([pd.notna] of
    a string is [True]). *)
Definition short_refArea (x : string) : string :=
  if true && Py.contains "/" x
  then Py.item_last (Py.rsplit1 "/" x)
  else x.

(** [df_scatter_filtered.groupby('refArea').mean().reset_index()]: the
    key is still the raw one. *)
Definition scatter_mean (g : string * list Row) : ScatterRow :=
  mkScatter g.1 (mean (PercentageofEducationlevelofresidents_illeterate <$> g.2))
                (mean (PercentageofSchooldropout <$> g.2)).

Definition df_grouped_raw (df_filtered : list Row) : list ScatterRow :=
  scatter_mean <$> groupby refArea df_filtered.

(** ... and after the two assignments to [df_grouped['refArea']]. *)
Definition df_grouped (df_filtered : list Row) : list ScatterRow :=
  (λ r, mkScatter (short_refArea (sc_refArea r))
                  (sc_illeterate r) (sc_dropout r))
    <$> df_grouped_raw df_filtered.

Definition box_mean (g : string * list Row) : BoxRow :=
  mkBox g.1 (mean (PercentageofEducationlevelofresidents_university <$> g.2)).

Definition df_box_grouped_raw (df_filtered : list Row) : list BoxRow :=
  box_mean <$> groupby refArea df_filtered.

Definition df_box_grouped (df_filtered : list Row) : list BoxRow :=
  (λ r, mkBox (short_refArea (bx_refArea r)) (bx_university r))
    <$> df_box_grouped_raw df_filtered.

(** [options=] and [default=] of the two multiselects. *)
Definition scatter_options (df_grouped : list ScatterRow) : list string :=
  unique (sc_refArea <$> df_grouped).

Definition box_options (df_box_grouped : list BoxRow) : list string :=
  unique (bx_refArea <$> df_box_grouped).

(** [df_grouped[df_grouped['refArea'].isin(selected_governorates)]] *)
Definition filtered_scatter_data (df_grouped : list ScatterRow)
    (selected_governorates : list string) : list ScatterRow :=
  filter (λ r, isin (sc_refArea r) selected_governorates) df_grouped.

Definition filtered_box_data (df_box_grouped : list BoxRow)
    (selected_box_governorates : list string) : list BoxRow :=
  filter (λ r, isin (bx_refArea r) selected_box_governorates)
         df_box_grouped.

(** What the five widgets return on one run of the script. *)
Record Widgets : Type := mkWidgets {
  dropout_range : cell * cell;
  illiteracy_range : cell * cell;
  include_above_avg_university : bool;
  selected_governorates : list string;
  selected_box_governorates : list string
}.

(** The tables one run of the script computes. *)
Record Run : Type := mkRun {
  run_df : list Row;
  run_avg_university_percentage : cell;
  run_df_filtered : list Row;
  run_df_grouped : list ScatterRow;
  run_filtered_scatter_data : list ScatterRow;
  run_df_box_grouped : list BoxRow;
  run_filtered_box_data : list BoxRow
}.

(** One run, top to bottom; [raw] is what [pd.read_csv] returned. *)
Definition script (raw : list Row) (w : Widgets) : Run :=
  let df := dropna raw in
  let filtered :=
    df_filtered df (dropout_range w) (illiteracy_range w)
                (include_above_avg_university w) in
  let grouped := df_grouped filtered in
  let box_grouped := df_box_grouped filtered in
  {| run_df := df;
     run_avg_university_percentage := avg_university_percentage df;
     run_df_filtered := filtered;
     run_df_grouped := grouped;
     run_filtered_scatter_data :=
       filtered_scatter_data grouped (selected_governorates w);
     run_df_box_grouped := box_grouped;
     run_filtered_box_data :=
       filtered_box_data box_grouped (selected_box_governorates w) |}.

(** The widget values of a first run, before the user touches anything. *)
Definition default_widgets (raw : list Row) : Widgets :=
  let df := dropna raw in
  let filtered :=
    df_filtered df (default_dropout_range df) (default_illiteracy_range df)
                false in
  {| dropout_range := default_dropout_range df;
     illiteracy_range := default_illiteracy_range df;
     include_above_avg_university := false;
     selected_governorates := scatter_options (df_grouped filtered);
     selected_box_governorates := box_options (df_box_grouped filtered) |}.

End App.

Import Pd App.

(** ** The scenario table of the specification *)

Definition num (z : Z) : cell := Some (Qc_of_Z z).

Definition row1 : Row := mkRow (Some "A/X") (num 5) (num 2) (num 10) (num 1).
Definition row2 : Row := mkRow (Some "A/X") (num 15) (num 8) (num 30) (num 1).
Definition row3 : Row := mkRow (Some "B/Y") (num 9) (num 4) (num 20) (num 1).
Definition scenario : list Row := [row1; row2; row3].

(** Two small grouped tables. *)
Definition scatter_XY : list ScatterRow :=
  [mkScatter "X" (num 2) (num 5); mkScatter "Y" (num 4) (num 9)].
Definition box_XY : list BoxRow := [mkBox "X" (num 10); mkBox "Y" (num 20)].

(** A table with two raw keys that share their last segment. *)
Definition row_BX : Row := mkRow (Some "B/X") (num 15) (num 8) (num 30) (num 1).
Definition shared_leaf : list Row := [row1; row_BX].

(** The scenario's widgets: full ranges, checkbox ticked. *)
Definition above_average_only : Widgets :=
  mkWidgets (default_dropout_range scenario)
            (default_illiteracy_range scenario) true ["X"; "Y"] ["X"; "Y"].

(** Widgets whose dropout range no row of the scenario falls in. *)
Definition out_of_range : Widgets :=
  mkWidgets (num 100, num 200) (default_illiteracy_range scenario) false
            ["X"; "Y"] ["X"; "Y"].

Definition null_dropout_row : Row :=
  mkRow (Some "C/Z") None (num 3) (num 40) (num 1).

(** ** The grouped records, in the words of the specification *)

(** The record of the partition with raw key [k] and rows [rs]: the
    means over [rs], under the key's last segment. *)
Definition scatter_record (k : string) (rs : list Row) : ScatterRow :=
  mkScatter
    (short_refArea k)
    (mean (PercentageofEducationlevelofresidents_illeterate <$> rs))
    (mean (PercentageofSchooldropout <$> rs)).

Definition box_record (k : string) (rs : list Row) : BoxRow :=
  mkBox
    (short_refArea k)
    (mean (PercentageofEducationlevelofresidents_university <$> rs)).

(** ** The filter predicate, in the words of the specification *)

(** [c] lies within [range], both ends included. *)
Definition within (c : cell) (range : cell * cell) : Prop :=
  ∃ x lo hi, c = Some x ∧ range = (Some lo, Some hi) ∧ lo ≤ x ∧ x ≤ hi.

(** [c] is strictly greater than [threshold]. *)
Definition strictly_above (c threshold : cell) : Prop :=
  ∃ x t, c = Some x ∧ threshold = Some t ∧ t < x.

(** ** The slider ranges, in words *)

(** [range] is the span of [col]: its ends are the least and the greatest
    non-null value of the column, or both are null when the column has no
    non-null value. *)
Definition is_span (col : list cell) (range : cell * cell) : Prop :=
  match range with
  | (Some lo, Some hi) =>
      lo ≤ hi ∧ Some lo ∈ col ∧ Some hi ∈ col ∧
      ∀ x, Some x ∈ col → lo ≤ x ∧ x ≤ hi
  | (None, None) => ∀ c, c ∈ col → c = None
  | _ => False
  end.

(** A range that some value lies in: two numbers, in order. *)
Definition proper_range (range : cell * cell) : Prop :=
  ∃ lo hi, range = (Some lo, Some hi) ∧ lo ≤ hi.

(** [inner] lies inside [outer], in pandas' comparisons. *)
Definition inside (inner outer : cell * cell) : Prop :=
  le outer.1 inner.1 = true ∧ le inner.2 outer.2 = true.

(** * Properties *)

(** ** The filter *)

Lemma ge_spec a b : ge a b = true ↔ ∃ x y, a = Some x ∧ b = Some y ∧ y ≤ x.
Proof.
  destruct a as [x|], b as [y|]; simpl; try (split; [done | naive_solver]).
  rewrite bool_decide_eq_true. naive_solver.
Qed.

Lemma le_spec a b : le a b = true ↔ ∃ x y, a = Some x ∧ b = Some y ∧ x ≤ y.
Proof.
  destruct a as [x|], b as [y|]; simpl; try (split; [done | naive_solver]).
  rewrite bool_decide_eq_true. naive_solver.
Qed.

Lemma gt_spec a b : gt a b = true ↔ strictly_above a b.
Proof.
  unfold strictly_above.
  destruct a as [x|], b as [y|]; simpl; try (split; [done | naive_solver]).
  rewrite bool_decide_eq_true. naive_solver.
Qed.

Lemma within_spec c range :
  ge c range.1 && le c range.2 = true ↔ within c range.
Proof.
  rewrite andb_true_iff, ge_spec, le_spec. unfold within.
  destruct range as [lo hi]; simpl. split.
  - intros [(x & y & -> & -> & ?) (x' & z & [= <-] & -> & ?)]. eauto 10.
  - intros (x & lo' & hi' & -> & [= -> ->] & ? & ?). eauto 10.
Qed.

Lemma range_mask_spec dr ir r :
  range_mask dr ir r = true ↔
  within (PercentageofSchooldropout r) dr ∧
  within (PercentageofEducationlevelofresidents_illeterate r) ir.
Proof.
  unfold range_mask. rewrite <- !within_spec, <- !andb_assoc.
  rewrite !andb_true_iff. tauto.
Qed.

(** C1: a row of the base table is kept by the filter exactly when its
    dropout value lies within the dropout range (ends included), its
    illiteracy value lies within the illiteracy range (ends included),
    and either the checkbox is off or its university value is strictly
    greater than the base table's average. *)
Theorem C1_filter_membership (df : list Row) (dr ir : cell * cell)
    (chk : bool) (r : Row) :
  r ∈ df_filtered df dr ir chk ↔
  r ∈ df ∧
  within (PercentageofSchooldropout r) dr ∧
  within (PercentageofEducationlevelofresidents_illeterate r) ir ∧
  (chk = false ∨
   strictly_above (PercentageofEducationlevelofresidents_university r)
                  (avg_university_percentage df)).
Proof.
  unfold df_filtered, df_range_filtered. destruct chk.
  - rewrite !list_elem_of_filter, !Is_true_true, gt_spec, range_mask_spec.
    naive_solver.
  - rewrite list_elem_of_filter, Is_true_true, range_mask_spec.
    naive_solver.
Qed.

(** Closed goals over decidable propositions are settled by running the
    decision procedure. *)
Ltac by_evaluation := apply (bool_decide_unpack _); vm_compute; exact I.

(** ** Facts about the pandas primitives *)

Section Columns.
Implicit Types (col : list cell) (xs : list Qc) (x : Qc).

Lemma notna_elem col x : x ∈ notna col ↔ Some x ∈ col.
Proof.
  unfold notna. rewrite list_elem_of_omap. split.
  - intros (c & Hc & Hx). simpl in Hx. by subst.
  - intros Hx. by exists (Some x).
Qed.

Lemma reduce_is_Some (f : Qc → Qc → Qc) xs :
  xs ≠ [] → is_Some (reduce f xs).
Proof. destruct xs as [|x t]; [done|]. simpl. destruct (reduce f t); eauto. Qed.

Lemma Qc_min_le_l x y : Qc_min x y ≤ x.
Proof.
  unfold Qc_min. case_decide as H; [apply Qcle_refl|].
  apply Qclt_le_weak. by apply Qcnot_le_lt.
Qed.

Lemma Qc_min_le_r x y : Qc_min x y ≤ y.
Proof. unfold Qc_min. case_decide; [done | apply Qcle_refl]. Qed.

Lemma Qc_max_ge_l x y : x ≤ Qc_max x y.
Proof. unfold Qc_max. case_decide; [done | apply Qcle_refl]. Qed.

Lemma Qc_max_ge_r x y : y ≤ Qc_max x y.
Proof.
  unfold Qc_max. case_decide as H; [apply Qcle_refl|].
  apply Qclt_le_weak. by apply Qcnot_le_lt.
Qed.

(** The reduction with [Qc_min] is a lower bound of the values... *)
Lemma reduce_min_lower xs x :
  x ∈ xs → ∃ m, reduce Qc_min xs = Some m ∧ m ≤ x.
Proof.
  induction xs as [|y t IH]; [by intros ?%elem_of_nil|].
  intros [->|Hx]%elem_of_cons; simpl.
  - destruct (reduce Qc_min t) as [m|]; eexists; (split; [done|]).
    + apply Qc_min_le_l.
    + apply Qcle_refl.
  - destruct (IH Hx) as (m & -> & Hm). eexists; split; [done|].
    eapply Qcle_trans; [apply Qc_min_le_r | done].
Qed.

(** ... and the one with [Qc_max] an upper bound. *)
Lemma reduce_max_upper xs x :
  x ∈ xs → ∃ m, reduce Qc_max xs = Some m ∧ x ≤ m.
Proof.
  induction xs as [|y t IH]; [by intros ?%elem_of_nil|].
  intros [->|Hx]%elem_of_cons; simpl.
  - destruct (reduce Qc_max t) as [m|]; eexists; (split; [done|]).
    + apply Qc_max_ge_l.
    + apply Qcle_refl.
  - destruct (IH Hx) as (m & -> & Hm). eexists; split; [done|].
    eapply Qcle_trans; [done | apply Qc_max_ge_r].
Qed.

(** A non-null cell of a column lies within the column's min-max span. *)
Lemma within_min_max col c :
  c ∈ col → is_Some c → within c (min col, max col).
Proof.
  intros Hc [x ->]. apply notna_elem in Hc.
  destruct (reduce_min_lower _ _ Hc) as (lo & Hlo & ?).
  destruct (reduce_max_upper _ _ Hc) as (hi & Hhi & ?).
  exists x, lo, hi. unfold min, max. rewrite Hlo, Hhi. done.
Qed.




End Columns.

Section Filters.
Context {A : Type} (P : A → Prop) `{!∀ x, Decision (P x)}.

Lemma filter_all (l : list A) : (∀ x, x ∈ l → P x) → filter P l = l.
Proof.
  induction l as [|a l IH]; [done|]. intros Hall.
  rewrite filter_cons_True by (apply Hall; left).
  f_equal. apply IH. intros x Hx. apply Hall. by right.
Qed.

Lemma filter_all_inv (l : list A) : filter P l = l → ∀ x, x ∈ l → P x.
Proof.
  intros E x Hx. rewrite <- E in Hx.
  by apply list_elem_of_filter in Hx as [? _].
Qed.

End Filters.

(** A null cell fails every comparison. *)
Lemma within_is_Some c range : within c range → is_Some c.
Proof. intros (x & ? & ? & -> & _). eauto. Qed.

Lemma default_ranges_identity (df : list Row) :
  df_filtered df (default_dropout_range df) (default_illiteracy_range df) false
    = df ↔
  ∀ r, r ∈ df →
    is_Some (PercentageofSchooldropout r) ∧
    is_Some (PercentageofEducationlevelofresidents_illeterate r).
Proof.
  unfold df_filtered, df_range_filtered. split.
  - intros E r Hr. eapply filter_all_inv in E; [|exact Hr].
    apply Is_true_true, range_mask_spec in E as [H1 H2].
    eauto using within_is_Some.
  - intros H. apply filter_all. intros r Hr.
    apply Is_true_true, range_mask_spec. destruct (H r Hr) as [H1 H2].
    split; apply within_min_max; try done; by apply list_elem_of_fmap_2.
Qed.

(** ** The threshold of the checkbox filter *)


(** The mean of the filtered subset is a different number: on the
    scenario table with the checkbox ticked it is 30, the threshold 20. *)
Example C2_filtered_mean_differs :
  let w := mkWidgets (default_dropout_range scenario)
                     (default_illiteracy_range scenario) true [] [] in
  run_avg_university_percentage (script scenario w) = num 20 ∧
  mean (PercentageofEducationlevelofresidents_university
          <$> run_df_filtered (script scenario w)) = num 30.
Proof. split; by_evaluation. Qed.

(** ** The default ranges *)

(** C5, as stated, fails: a row whose dropout value is null survives the
    load (its higher-education value is present) and is dropped by the
    filter at the default ranges. *)
Lemma C5_counterexample :
  let df := dropna [row1; null_dropout_row] in
  df = [row1; null_dropout_row] ∧
  df_filtered df (default_dropout_range df) (default_illiteracy_range df)
              false ≠ df.
Proof.
  split; by_evaluation.
Qed.

(** C5, amended: on a base table with no null dropout and no null
    illiteracy value, the filter at the default ranges with the checkbox
    off returns the table itself. *)
Theorem C5_default_ranges_keep_all (df : list Row) :
  (∀ r, r ∈ df →
     is_Some (PercentageofSchooldropout r) ∧
     is_Some (PercentageofEducationlevelofresidents_illeterate r)) →
  df_filtered df (default_dropout_range df) (default_illiteracy_range df)
              false = df.
Proof. apply default_ranges_identity. Qed.

Lemma C5_default_ranges_keep_all_witness :
  df_filtered scenario (default_dropout_range scenario)
              (default_illiteracy_range scenario) false = scenario.
Proof.
  apply (C5_default_ranges_keep_all scenario).
  intros r Hr. apply Forall_forall with (x := r) (l := scenario); [|done].
  repeat constructor; by eexists.
Defined.

(** ** Null cells *)

(** C10: only the higher-education column decides what the load keeps, so
    a row with a null dropout or illiteracy value can be in the base
    table; such a row fails both range comparisons and is dropped by the
    filter whatever the widgets say; hence the filter at the default
    ranges returns the base table only when neither column has a null. *)
Theorem C10_null_rows_are_dropped :
  (∀ raw r,
     r ∈ dropna raw ↔
     r ∈ raw ∧
     is_Some (PercentageofEducationlevelofresidents_highereducation r)) ∧
  (∀ b, ge None b = false ∧ le None b = false) ∧
  (∀ df dr ir chk r,
     PercentageofSchooldropout r = None ∨
     PercentageofEducationlevelofresidents_illeterate r = None →
     r ∉ df_filtered df dr ir chk) ∧
  (∀ df,
     df_filtered df (default_dropout_range df) (default_illiteracy_range df)
                 false = df →
     ∀ r, r ∈ df →
       is_Some (PercentageofSchooldropout r) ∧
       is_Some (PercentageofEducationlevelofresidents_illeterate r)).
Proof.
  split; [|split; [|split]].
  - intros raw r. unfold dropna. rewrite list_elem_of_filter. tauto.
  - done.
  - intros df dr ir chk r Hnull Hr.
    assert (r ∈ df_range_filtered df dr ir) as Hr'.
    { unfold df_filtered in Hr. destruct chk; [|done].
      by apply list_elem_of_filter in Hr as [_ ?]. }
    apply list_elem_of_filter in Hr' as [Hm _].
    apply Is_true_true, range_mask_spec in Hm as [H1 H2].
    apply within_is_Some in H1 as [? H1], H2 as [? H2].
    destruct Hnull; congruence.
  - intros df. apply default_ranges_identity.
Qed.

(** ** Region names *)

Section Rsplit.
Variable sep : ascii.

Lemma rcut_None s : Py.rcut sep s = None ↔ Py.contains sep s = false.
Proof.
  induction s as [|a t IH]; simpl; [done|].
  destruct (Py.rcut sep t) as [[p q]|].
  - destruct (Ascii.eqb a sep); [done|].
    split; [done|]. intros H. apply IH in H. done.
  - destruct (Ascii.eqb a sep); [done|]. by rewrite <- IH.
Qed.

(** The cut is at the last separator: nothing after it contains one. *)
Lemma rcut_Some s p q :
  Py.rcut sep s = Some (p, q) →
  s = p +:+ String sep q ∧ Py.contains sep q = false.
Proof.
  revert p q. induction s as [|a t IH]; intros p q; simpl; [done|].
  destruct (Py.rcut sep t) as [[p' q']|] eqn:E.
  - intros [= <- <-]. destruct (IH _ _ eq_refl) as [-> ?]. done.
  - destruct (Ascii.eqb_spec a sep) as [->|]; [|done].
    intros [= <- <-]. split; [done|]. by apply rcut_None.
Qed.

End Rsplit.

(** C4: a key that contains a slash is shortened to the text after its
    last slash (the result follows a slash in the key and contains none);
    a key without a slash is left as it is. *)
Theorem C4_short_refArea (x : string) :
  (Py.contains "/" x = true →
     ∃ p, x = p +:+ "/" +:+ short_refArea x ∧
          Py.contains "/" (short_refArea x) = false) ∧
  (Py.contains "/" x = false → short_refArea x = x) ∧
  short_refArea "http://example.org/Beirut" = "Beirut" ∧
  short_refArea "Beirut" = "Beirut".
Proof.
  unfold short_refArea, Py.rsplit1. repeat split; try done.
  - intros Hc. rewrite Hc. simpl.
    destruct (Py.rcut "/" x) as [[p q]|] eqn:E.
    + apply rcut_Some in E as [-> ?]. by exists p.
    + apply rcut_None in E. congruence.
  - by intros ->.
Qed.

(** ** Selection *)

Section Isin.
Context {A : Type} (key : A → string).

Lemma isin_nil (df : list A) : filter (λ r, isin (key r) []) df = [].
Proof.
  induction df as [|r df IH]; [done|].
  rewrite filter_cons_False; [exact IH|]. unfold isin.
  rewrite bool_decide_eq_false_2; [auto | apply not_elem_of_nil].
Qed.

Lemma isin_all (df : list A) (values : list string) :
  (∀ k, k ∈ key <$> df → k ∈ values) →
  filter (λ r, isin (key r) values) df = df.
Proof.
  intros Hall. apply filter_all. intros r Hr. unfold isin.
  apply Is_true_true, bool_decide_eq_true, Hall.
  by apply list_elem_of_fmap_2.
Qed.

End Isin.

Lemma unique_elem (l : list string) (k : string) : k ∈ unique l ↔ k ∈ l.
Proof.
  induction l as [|x t IH]; simpl; [done|].
  rewrite !elem_of_cons, list_elem_of_filter, IH.
  destruct (decide (k = x)); naive_solver.
Qed.

Lemma unique_NoDup (l : list string) : NoDup (unique l).
Proof.
  induction l as [|x t IH]; simpl; constructor.
  - rewrite list_elem_of_filter. naive_solver.
  - by apply NoDup_filter.
Qed.

(** C7: with nothing selected, both chart tables are empty, whatever the
    grouped tables hold. *)
Theorem C7_empty_selection (g : list ScatterRow) (b : list BoxRow) :
  filtered_scatter_data g [] = [] ∧ filtered_box_data b [] = [].
Proof. split; apply isin_nil. Qed.

(** C8: when the selection holds exactly the region names present in a
    grouped table, the chart table is the grouped table (the same records
    in the same order, so also up to order); the widgets' default
    selection is such a selection. *)
Theorem C8_full_selection (g : list ScatterRow) (b : list BoxRow)
    (sel sel' : list string) :
  (∀ k, k ∈ sel ↔ k ∈ sc_refArea <$> g) →
  (∀ k, k ∈ sel' ↔ k ∈ bx_refArea <$> b) →
  (filtered_scatter_data g sel = g ∧ filtered_scatter_data g sel ≡ₚ g) ∧
  (filtered_box_data b sel' = b ∧ filtered_box_data b sel' ≡ₚ b) ∧
  filtered_scatter_data g (scatter_options g) = g ∧
  filtered_box_data b (box_options b) = b.
Proof.
  intros Hsel Hsel'.
  assert (filtered_scatter_data g sel = g) as Eg
    by (apply isin_all; intros k; apply Hsel).
  assert (filtered_box_data b sel' = b) as Eb
    by (apply isin_all; intros k; apply Hsel').
  rewrite Eg, Eb. repeat split; try done.
  - apply isin_all. intros k. unfold scatter_options. by rewrite unique_elem.
  - apply isin_all. intros k. unfold box_options. by rewrite unique_elem.
Qed.

Lemma C8_full_selection_witness :
  filtered_scatter_data scatter_XY ["X"; "Y"] = scatter_XY ∧
  filtered_box_data box_XY ["Y"; "X"] = box_XY.
Proof.
  destruct (C8_full_selection scatter_XY box_XY ["X"; "Y"] ["Y"; "X"])
    as ((Hs & _) & (Hb & _) & _).
  - intros k. simpl. reflexivity.
  - intros k. simpl. rewrite !elem_of_cons. tauto.
  - split; [exact Hs | exact Hb].
Defined.

(** ** Grouping *)

Section Groupby.
Context {A : Type} (by_ : A → option string).
Implicit Types (df : list A) (k : string).

Lemma group_keys_elem (keys : list (option string)) k :
  k ∈ group_keys keys ↔ Some k ∈ keys.
Proof.
  unfold group_keys. rewrite merge_sort_Permutation, unique_elem.
  rewrite list_elem_of_omap. split.
  - intros (o & Ho & E). simpl in E. by subst.
  - intros Hk. by exists (Some k).
Qed.

Lemma group_keys_NoDup (keys : list (option string)) :
  NoDup (group_keys keys).
Proof.
  unfold group_keys. rewrite merge_sort_Permutation. apply unique_NoDup.
Qed.

(** pandas' [sort=True]: the keys come out in ascending order. *)
Lemma group_keys_Sorted (keys : list (option string)) :
  Sorted String.le (group_keys keys).
Proof. apply (Sorted_merge_sort String.le). Qed.

Lemma groupby_keys df : (groupby by_ df).*1 = group_keys (by_ <$> df).
Proof.
  unfold groupby. rewrite <- list_fmap_compose.
  induction (group_keys (by_ <$> df)) as [|k ks IH]; [done|].
  simpl. by f_equal.
Qed.

Lemma groupby_key_present df k :
  k ∈ (groupby by_ df).*1 ↔ ∃ r, r ∈ df ∧ by_ r = Some k.
Proof.
  rewrite groupby_keys, group_keys_elem, list_elem_of_fmap. naive_solver.
Qed.

Lemma groupby_elem df k (rs : list A) :
  (k, rs) ∈ groupby by_ df ↔
  k ∈ (groupby by_ df).*1 ∧ rs = filter (λ r, by_ r = Some k) df.
Proof.
  rewrite groupby_keys. unfold groupby. rewrite list_elem_of_fmap. split.
  - intros (k' & [= -> ->] & Hk). done.
  - intros [Hk ->]. by exists k.
Qed.

(** A group is never empty: it holds the rows that brought its key. *)
Lemma groupby_nonempty df k (rs : list A) :
  (k, rs) ∈ groupby by_ df → rs ≠ [].
Proof.
  intros [Hk ->]%groupby_elem.
  apply groupby_key_present in Hk as (r & Hr & E).
  intros Hnil.
  assert (r ∈ filter (λ r, by_ r = Some k) df) as Hin
    by by apply list_elem_of_filter.
  rewrite Hnil in Hin. by apply elem_of_nil in Hin.
Qed.

Lemma groupby_nil : groupby by_ [] = [].
Proof. done. Qed.


End Groupby.


(** Two raw keys with the same last segment: two records, both named
    ["X"], neither averaged with the other. *)
Example C3_shared_leaf_not_merged :
  df_grouped shared_leaf =
    [mkScatter "X" (num 2) (num 5); mkScatter "X" (num 8) (num 15)] ∧
  df_box_grouped shared_leaf = [mkBox "X" (num 10); mkBox "X" (num 30)].
Proof. split; by_evaluation. Qed.

(** ** Empty results *)

(** C6: when the filter keeps no row, the run goes on: both grouped
    tables and both chart tables are empty.  And no group is ever empty,
    so no mean is taken over an empty partition. *)
Theorem C6_empty_filter_result (raw : list Row) (w : Widgets) :
  run_df_filtered (script raw w) = [] →
  (run_df_grouped (script raw w) = [] ∧
   run_filtered_scatter_data (script raw w) = [] ∧
   run_df_box_grouped (script raw w) = [] ∧
   run_filtered_box_data (script raw w) = []) ∧
  (∀ t k rs, (k, rs) ∈ groupby refArea t → rs ≠ []).
Proof.
  simpl. intros ->. split; [done|].
  intros t k rs. apply groupby_nonempty.
Qed.

Lemma C6_empty_filter_result_witness :
  run_df_filtered (script scenario out_of_range) = [] ∧
  run_df_grouped (script scenario out_of_range) = [] ∧
  run_filtered_box_data (script scenario out_of_range) = [].
Proof.
  assert (run_df_filtered (script scenario out_of_range) = []) as H
    by by_evaluation.
  destruct (C6_empty_filter_result scenario out_of_range H)
    as [(Hg & _ & _ & Hb) _].
  split; [exact H | split; [exact Hg | exact Hb]].
Defined.

(** ** The scenario *)

(** C9: on the three-row table the threshold is 20; with the checkbox
    ticked and the full ranges the filter keeps the second row only (the
    third row's 20 is not above 20), and grouping gives the single record
    ["X"] with dropout 15 and illiteracy 8. *)
Theorem C9_scenario :
  let run := script scenario above_average_only in
  run_df run = scenario ∧
  dropout_range above_average_only = (num 5, num 15) ∧
  illiteracy_range above_average_only = (num 2, num 8) ∧
  run_avg_university_percentage run = num 20 ∧
  run_df_filtered run = [row2] ∧
  gt (PercentageofEducationlevelofresidents_university row3)
     (run_avg_university_percentage run) = false ∧
  run_df_grouped run = [mkScatter "X" (num 8) (num 15)].
Proof. repeat split; by_evaluation. Qed.

(** ** The first run *)

(** X17: before the user touches a widget, and when neither slider
    column has a null, the charts show every group of the whole base
    table. *)
Corollary first_run_shows_everything (raw : list Row) :
  let run := script raw (default_widgets raw) in
  (∀ r, r ∈ dropna raw →
     is_Some (PercentageofSchooldropout r) ∧
     is_Some (PercentageofEducationlevelofresidents_illeterate r)) →
  run_df_filtered run = run_df run ∧
  run_filtered_scatter_data run = df_grouped (run_df run) ∧
  run_filtered_box_data run = df_box_grouped (run_df run).
Proof.
  intros run Hnn. apply default_ranges_identity in Hnn.
  subst run. unfold script, default_widgets.
  cbn [run_df run_df_filtered run_filtered_scatter_data
       run_filtered_box_data dropout_range illiteracy_range
       include_above_avg_university selected_governorates
       selected_box_governorates].
  rewrite !Hnn. split; [done|].
  split; apply isin_all; intros k.
  - unfold scatter_options. by rewrite unique_elem.
  - unfold box_options. by rewrite unique_elem.
Qed.


(** * Further properties of the script *)

(** ** The filter keeps the order of the rows *)

Lemma within_inside c inner outer :
  inside inner outer → within c inner → within c outer.
Proof.
  intros [H1 H2] (x & lo & hi & -> & -> & Hlo & Hhi).
  apply le_spec in H1 as (lo' & ? & Ho1 & [= <-] & Hlo').
  apply le_spec in H2 as (? & hi' & [= <-] & Ho2 & Hhi').
  destruct outer as [o1 o2]; simpl in *; subst.
  exists x, lo', hi'. repeat split; try done; by eapply Qcle_trans.
Qed.

Lemma within_proper c range : within c range → proper_range range.
Proof.
  intros (x & lo & hi & _ & -> & Hlo & Hhi).
  exists lo, hi. split; [done|]. by eapply Qcle_trans.
Qed.

(** X1: the filtered table is the base table with rows left out: the rows
    that stay keep their order, and ticking the checkbox only leaves out
    more rows. *)
Theorem X1_filter_is_a_sublist (df : list Row) (dr ir : cell * cell)
    (chk : bool) :
  df_filtered df dr ir chk `sublist_of` df ∧
  df_filtered df dr ir true `sublist_of` df_filtered df dr ir false ∧
  (length (df_filtered df dr ir chk) ≤ length df)%nat.
Proof.
  assert (df_filtered df dr ir true `sublist_of` df_filtered df dr ir false)
    as Htick by apply sublist_filter.
  assert (df_filtered df dr ir chk `sublist_of` df) as Hsub.
  { destruct chk; [etrans; [exact Htick|]|]; apply sublist_filter. }
  split; [done|]. split; [done|]. by apply sublist_length.
Qed.

(** X2: narrowing the sliders only removes rows: when both ranges lie
    inside wider ones, the table filtered by the narrow ranges is the
    table filtered by the wide ones, filtered again by the narrow ones,
    whether the checkbox is ticked or not (the threshold does not move
    with the sliders). *)
Theorem X2_narrower_ranges_remove_rows (df : list Row)
    (dr ir dr' ir' : cell * cell) (chk : bool) :
  inside dr dr' → inside ir ir' →
  df_range_filtered (df_filtered df dr' ir' chk) dr ir
    = df_filtered df dr ir chk ∧
  df_filtered df dr ir chk `sublist_of` df_filtered df dr' ir' chk.
Proof.
  intros Hd Hi.
  assert (df_range_filtered (df_filtered df dr' ir' chk) dr ir
          = df_filtered df dr ir chk) as E.
  { unfold df_filtered, df_range_filtered. destruct chk.
    - rewrite !list_filter_filter. apply list_filter_iff. intros r.
      rewrite !Is_true_true, !range_mask_spec.
      split; [tauto|]. intros (Hg & H1 & H2).
      eauto 10 using within_inside.
    - apply list_filter_filter_l. intros r.
      rewrite !Is_true_true, !range_mask_spec. intros [H1 H2].
      eauto using within_inside. }
  split; [exact E|]. rewrite <- E. apply sublist_filter.
Qed.

Lemma X2_narrower_ranges_remove_rows_witness :
  df_filtered scenario (num 5, num 9) (num 2, num 8) false
    `sublist_of` df_filtered scenario (num 0, num 10) (num 0, num 100) false.
Proof.
  apply (X2_narrower_ranges_remove_rows scenario
           (num 5, num 9) (num 2, num 8) (num 0, num 10) (num 0, num 100)
           false);
    split; vm_compute; reflexivity.
Defined.

(** X4: a range that is not two numbers in order (an end is null, or the
    ends are swapped) keeps no row at all. *)
Theorem X4_improper_range_keeps_nothing (df : list Row)
    (dr ir : cell * cell) (chk : bool) :
  ¬ proper_range dr ∨ ¬ proper_range ir →
  df_filtered df dr ir chk = [].
Proof.
  intros Himp. apply elem_of_nil_inv. intros r Hr.
  assert (r ∈ df_range_filtered df dr ir) as Hr'.
  { unfold df_filtered in Hr. destruct chk; [|done].
    by apply list_elem_of_filter in Hr as [_ ?]. }
  apply list_elem_of_filter in Hr' as [Hm _].
  apply Is_true_true, range_mask_spec in Hm as [H1 H2].
  destruct Himp as [Hn|Hn]; apply Hn; by eapply within_proper.
Qed.

Lemma X4_improper_range_keeps_nothing_witness :
  df_filtered scenario (None, None) (num 2, num 8) false = [].
Proof.
  apply (X4_improper_range_keeps_nothing scenario (None, None)
           (num 2, num 8) false).
  left. intros (lo & hi & E & _). discriminate E.
Defined.

(** ** The sliders' default ranges *)

Section Extremes.
Implicit Types (col : list cell) (xs : list Qc).

Lemma reduce_None (f : Qc → Qc → Qc) xs : reduce f xs = None ↔ xs = [].
Proof.
  destruct xs as [|x t]; [done|]. simpl. by destruct (reduce f t).
Qed.

(** A reduction that picks one of its two arguments returns a value of
    the list. *)
Lemma reduce_elem (f : Qc → Qc → Qc) xs m :
  (∀ x y, f x y = x ∨ f x y = y) →
  reduce f xs = Some m → m ∈ xs.
Proof.
  intros Hf. revert m. induction xs as [|x t IH]; intros m; [done|].
  simpl. destruct (reduce f t) as [m'|].
  - intros [= <-]. destruct (Hf x m') as [-> | ->]; [left|right; auto].
  - intros [= <-]. left.
Qed.

Lemma Qc_min_pick x y : Qc_min x y = x ∨ Qc_min x y = y.
Proof. unfold Qc_min. case_decide; auto. Qed.

Lemma Qc_max_pick x y : Qc_max x y = x ∨ Qc_max x y = y.
Proof. unfold Qc_max. case_decide; auto. Qed.

Lemma span_min_max col : is_span col (min col, max col).
Proof.
  unfold is_span, min, max.
  destruct (reduce Qc_min (notna col)) as [lo|] eqn:Elo.
  - assert (lo ∈ notna col) as Hlo
      by (eapply reduce_elem; [apply Qc_min_pick | done]).
    destruct (reduce_max_upper _ _ Hlo) as (hi & Ehi & Hle).
    rewrite Ehi.
    assert (hi ∈ notna col) as Hhi
      by (eapply reduce_elem; [apply Qc_max_pick | done]).
    split; [done|]. split; [by apply notna_elem|].
    split; [by apply notna_elem|].
    intros x Hx%notna_elem.
    destruct (reduce_min_lower _ _ Hx) as (lo' & Elo' & ?).
    destruct (reduce_max_upper _ _ Hx) as (hi' & Ehi' & ?).
    by simplify_eq.
  - apply reduce_None in Elo. rewrite Elo. simpl.
    intros [x|] Hc; [|done].
    apply notna_elem in Hc. rewrite Elo in Hc. by apply elem_of_nil in Hc.
Qed.

End Extremes.

(** X3: the default value of each slider is the span of its column: two
    values that rows of the table carry, the first not above the second,
    with every non-null value of the column between them; or two nulls,
    when the column has no non-null value. *)
Theorem X3_default_ranges_are_spans (df : list Row) :
  is_span (PercentageofSchooldropout <$> df) (default_dropout_range df) ∧
  is_span (PercentageofEducationlevelofresidents_illeterate <$> df)
          (default_illiteracy_range df).
Proof. split; apply span_min_max. Qed.

(** ** The load *)

(** X5: the null-drop leaves rows out and touches nothing else: what it
    keeps is in the order of the file, every kept row has a
    higher-education value, a table without nulls in that column comes
    back as it is, and a run on the cleaned table is the same run. *)
Theorem X5_dropna_cleans_once (raw : list Row) (w : Widgets) :
  dropna raw `sublist_of` raw ∧
  Forall
    (λ r, is_Some (PercentageofEducationlevelofresidents_highereducation r))
    (dropna raw) ∧
  (dropna raw = raw ↔
   Forall
     (λ r, is_Some (PercentageofEducationlevelofresidents_highereducation r))
     raw) ∧
  script (dropna raw) w = script raw w.
Proof.
  assert (dropna (dropna raw) = dropna raw) as Hidem.
  { unfold dropna. by apply list_filter_filter_l. }
  split; [apply sublist_filter|]. split; [|split].
  - apply Forall_forall. intros r Hr.
    by apply list_elem_of_filter in Hr as [? _].
  - rewrite Forall_forall. split.
    + apply filter_all_inv.
    + apply filter_all.
  - unfold script. by rewrite Hidem.
Qed.

(** ** Region names, once more *)

Lemma rcut_app (sep : ascii) (p q : string) :
  Py.contains sep q = false →
  Py.rcut sep (p +:+ String sep q) = Some (p, q).
Proof.
  intros Hq. induction p as [|a p IH].
  - change ("" +:+ String sep q) with (String sep q). simpl.
    apply rcut_None in Hq. rewrite Hq. by rewrite Ascii.eqb_refl.
  - change (String a p +:+ String sep q)
      with (String a (p +:+ String sep q)).
    simpl. by rewrite IH.
Qed.

Lemma contains_app (c : ascii) (p q : string) :
  Py.contains c (p +:+ String c q) = true.
Proof.
  induction p as [|a p IH].
  - change ("" +:+ String c q) with (String c q). simpl.
    by rewrite Ascii.eqb_refl.
  - change (String a p +:+ String c q) with (String a (p +:+ String c q)).
    simpl. rewrite IH. by destruct (Ascii.eqb a c).
Qed.

Lemma short_refArea_no_slash (x : string) :
  Py.contains "/" (short_refArea x) = false.
Proof.
  unfold short_refArea, Py.rsplit1. simpl.
  destruct (Py.contains "/" x) eqn:Hc; [|done].
  destruct (Py.rcut "/" x) as [[p q]|] eqn:E.
  - by apply rcut_Some in E as [_ ?].
  - apply rcut_None in E. congruence.
Qed.

Lemma short_refArea_plain (x : string) :
  Py.contains "/" x = false → short_refArea x = x.
Proof. unfold short_refArea. by intros ->. Qed.

(** X6: whatever precedes the last slash is thrown away: a key made of
    any text, a slash and a slash-free name is shortened to that name.  In
    particular a key that ends in a slash is shortened to the empty
    name. *)
Theorem X6_short_refArea_takes_the_leaf (p q : string) :
  Py.contains "/" q = false →
  short_refArea (p +:+ "/" +:+ q) = q ∧ short_refArea (p +:+ "/") = "".
Proof.
  intros Hq. unfold short_refArea, Py.rsplit1.
  change (p +:+ "/" +:+ q) with (p +:+ String "/" q).
  change (p +:+ "/") with (p +:+ String "/" "").
  rewrite !contains_app. simpl. rewrite !rcut_app; done.
Qed.

Lemma X6_short_refArea_takes_the_leaf_witness :
  short_refArea ("https://dbpedia.org/page" +:+ "/" +:+ "Mount_Lebanon")
    = "Mount_Lebanon".
Proof.
  apply (X6_short_refArea_takes_the_leaf
           "https://dbpedia.org/page" "Mount_Lebanon").
  reflexivity.
Defined.

(** X7: a shortened name contains no slash, so shortening it again
    changes nothing. *)
Theorem X7_short_refArea_idempotent (x : string) :
  Py.contains "/" (short_refArea x) = false ∧
  short_refArea (short_refArea x) = short_refArea x.
Proof.
  split; [apply short_refArea_no_slash|].
  apply short_refArea_plain, short_refArea_no_slash.
Qed.

(** ** The options of the multiselects *)

Lemma unique_sublist (l : list string) : unique l `sublist_of` l.
Proof.
  induction l as [|x t IH]; simpl; [done|].
  apply sublist_skip. etrans; [apply sublist_filter | exact IH].
Qed.


(** ** The two grouped tables side by side *)

Lemma df_grouped_names (t : list Row) :
  sc_refArea <$> df_grouped t = short_refArea <$> group_keys (refArea <$> t).
Proof.
  unfold df_grouped, df_grouped_raw, groupby.
  rewrite <- !list_fmap_compose. by apply list_fmap_ext.
Qed.

Lemma df_box_grouped_names (t : list Row) :
  bx_refArea <$> df_box_grouped t
    = short_refArea <$> group_keys (refArea <$> t).
Proof.
  unfold df_box_grouped, df_box_grouped_raw, groupby.
  rewrite <- !list_fmap_compose. by apply list_fmap_ext.
Qed.

(** X9: the scatter table and the box table of one run have the same
    names at the same positions, hence the same number of records, and
    the two multiselects offer the same options. *)
Theorem X9_grouped_tables_are_aligned (t : list Row) :
  sc_refArea <$> df_grouped t = bx_refArea <$> df_box_grouped t ∧
  length (df_grouped t) = length (df_box_grouped t) ∧
  scatter_options (df_grouped t) = box_options (df_box_grouped t).
Proof.
  assert (sc_refArea <$> df_grouped t = bx_refArea <$> df_box_grouped t)
    as E by (by rewrite df_grouped_names, df_box_grouped_names).
  split; [exact E|]. split.
  - apply (f_equal length) in E. by rewrite !length_fmap in E.
  - unfold scatter_options, box_options. by rewrite E.
Qed.

(** ** What grouping does with the rows *)

Section Partition.
Context {A : Type} (by_ : A → option string).
Implicit Types (df : list A) (ks : list string).

Lemma omap_id_fmap df : omap id (by_ <$> df) = omap by_ df.
Proof.
  induction df as [|r df IH]; [done|]. csimpl.
  rewrite IH. by destruct (by_ r).
Qed.

Lemma length_omap_le df : (length (omap by_ df) ≤ length df)%nat.
Proof.
  induction df as [|r df IH]; [done|]. csimpl.
  destruct (by_ r); simpl; lia.
Qed.

Lemma group_keys_length_le df :
  (length (group_keys (by_ <$> df)) ≤ length df)%nat.
Proof.
  unfold group_keys. rewrite merge_sort_Permutation, omap_id_fmap.
  etrans; [apply sublist_length, unique_sublist | apply length_omap_le].
Qed.

Lemma group_keys_size df :
  length (group_keys (by_ <$> df))
    = size (list_to_set (omap by_ df) : gset string).
Proof.
  rewrite <- (size_list_to_set (C := gset string) (group_keys (by_ <$> df)))
    by apply group_keys_NoDup.
  f_equal. apply set_eq. intros k.
  rewrite !elem_of_list_to_set, group_keys_elem, <- omap_id_fmap.
  rewrite list_elem_of_omap. split.
  - intros Hk. by exists (Some k).
  - intros (o & Ho & E). simpl in E. by subst.
Qed.

(** Rows without a key take no part in the grouping. *)
Lemma groupby_notna df :
  groupby by_ (filter (λ r, is_Some (by_ r)) df) = groupby by_ df.
Proof.
  unfold groupby.
  assert (omap by_ (filter (λ r, is_Some (by_ r)) df) = omap by_ df) as E.
  { induction df as [|r df IH]; [done|]. rewrite filter_cons.
    destruct (decide (is_Some (by_ r))) as [Hs|Hn]; csimpl.
    - by rewrite IH.
    - destruct (by_ r); [|exact IH]. destruct Hn. eauto. }
  unfold group_keys. rewrite !omap_id_fmap, E.
  apply list_fmap_ext. intros _ k _. f_equal.
  apply list_filter_filter_l. intros r ->. eauto.
Qed.

Lemma filter_none df (P : A → Prop) `{!∀ x, Decision (P x)} :
  (∀ r, r ∈ df → ¬ P r) → filter P df = [].
Proof.
  intros Hn. apply elem_of_nil_inv. intros r Hr.
  apply list_elem_of_filter in Hr as [HP Hr]. by apply (Hn r).
Qed.

Lemma filter_ext_in df (P Q : A → Prop)
    `{!∀ x, Decision (P x), !∀ x, Decision (Q x)} :
  (∀ r, r ∈ df → P r ↔ Q r) → filter P df = filter Q df.
Proof.
  induction df as [|r df IH]; [done|]. intros Hext.
  rewrite !filter_cons, IH by (intros; apply Hext; by right).
  apply decide_ext, Hext. left.
Qed.

(** The rows of one more key, put in front of the rows of the others. *)
Lemma filter_one_more_key df k ks :
  k ∉ ks →
  filter (λ r, by_ r = Some k) df ++ filter (λ r, by_ r ∈ Some <$> ks) df
  ≡ₚ filter (λ r, by_ r ∈ Some <$> (k :: ks)) df.
Proof.
  intros Hk. induction df as [|r df IH]; [done|].
  rewrite !filter_cons, fmap_cons.
  destruct (decide (by_ r = Some k)) as [E|E].
  - rewrite decide_False.
    + rewrite decide_True by (rewrite E; left). simpl. by rewrite IH.
    + rewrite E. intros Hin. by apply list_elem_of_fmap_inj_2 in Hin; [|apply _].
  - destruct (decide (by_ r ∈ Some <$> ks)) as [Hin|Hnin].
    + rewrite decide_True by (by right).
      rewrite <- Permutation_middle. by rewrite IH.
    + rewrite decide_False; [exact IH|].
      intros [?|?]%elem_of_cons; done.
Qed.

Lemma groups_of_keys df ks :
  NoDup ks →
  mjoin ((λ k, filter (λ r, by_ r = Some k) df) <$> ks)
  ≡ₚ filter (λ r, by_ r ∈ Some <$> ks) df.
Proof.
  induction 1 as [|k ks Hk Hnd IH]; simpl.
  - symmetry. rewrite filter_none; [done|].
    intros r _. apply not_elem_of_nil.
  - rewrite IH. by apply filter_one_more_key.
Qed.

(** Every row with a key is in the group of its key and in no other. *)
Lemma groupby_partition df :
  mjoin (groupby by_ df).*2 ≡ₚ filter (λ r, is_Some (by_ r)) df.
Proof.
  unfold groupby. rewrite <- list_fmap_compose.
  change (snd ∘ _) with (λ k, filter (λ r : A, by_ r = Some k) df).
  rewrite groups_of_keys by apply group_keys_NoDup.
  rewrite (filter_ext_in df
             (λ r, by_ r ∈ Some <$> group_keys (by_ <$> df))
             (λ r, is_Some (by_ r))); [done|].
  intros r Hr. destruct (by_ r) as [k|] eqn:E.
  - rewrite (list_elem_of_fmap_inj Some), group_keys_elem.
    rewrite <- E. split; [eauto|]. intros _. by apply list_elem_of_fmap_2.
  - split; [|by intros [? ?]].
    intros (k & ? & _)%list_elem_of_fmap. done.
Qed.

(** The keys come out in the same order whatever the order of the rows. *)
Lemma group_keys_Permutation (keys keys' : list (option string)) :
  keys ≡ₚ keys' → group_keys keys = group_keys keys'.
Proof.
  intros Hp.
  apply (Sorted_unique String.le); try apply group_keys_Sorted.
  apply NoDup_Permutation; try apply group_keys_NoDup.
  intros k. by rewrite !group_keys_elem, Hp.
Qed.

End Partition.

Lemma df_grouped_records (t : list Row) :
  df_grouped t = (λ g, scatter_record g.1 g.2) <$> groupby refArea t.
Proof. unfold df_grouped, df_grouped_raw. by rewrite <- list_fmap_compose. Qed.

Lemma df_box_grouped_records (t : list Row) :
  df_box_grouped t = (λ g, box_record g.1 g.2) <$> groupby refArea t.
Proof.
  unfold df_box_grouped, df_box_grouped_raw. by rewrite <- list_fmap_compose.
Qed.

(** X10: each grouped table has one record per distinct non-null raw key
    of the filtered rows, so never more records than rows. *)
Theorem X10_one_record_per_raw_key (t : list Row) :
  length (df_grouped t) = size (list_to_set (omap refArea t) : gset string) ∧
  length (df_box_grouped t)
    = size (list_to_set (omap refArea t) : gset string) ∧
  (length (df_grouped t) ≤ length t)%nat.
Proof.
  rewrite df_grouped_records, df_box_grouped_records, !length_fmap.
  unfold groupby. rewrite length_fmap.
  split; [apply group_keys_size|]. split; [apply group_keys_size|].
  apply group_keys_length_le.
Qed.

(** X11: grouping shares the rows out: put together, the groups hold
    each row that has a region exactly once and no other row.  A row
    without a region is in no group, and leaving such rows out beforehand
    changes neither grouped table. *)
Theorem X11_groups_share_out_the_rows (t : list Row) :
  mjoin (groupby refArea t).*2 ≡ₚ filter (λ r, is_Some (refArea r)) t ∧
  df_grouped (filter (λ r, is_Some (refArea r)) t) = df_grouped t ∧
  df_box_grouped (filter (λ r, is_Some (refArea r)) t) = df_box_grouped t.
Proof.
  split; [apply groupby_partition|].
  by rewrite !df_grouped_records, !df_box_grouped_records, groupby_notna.
Qed.

(** X12: the records come out sorted by raw key, without repetition, and
    so in an order that does not depend on the order of the rows: two
    tables with the same rows in different orders give the same keys and
    the same names at the same positions. *)
Theorem X12_record_order_is_the_key_order (t t' : list Row) :
  t ≡ₚ t' →
  Sorted String.le (sc_refArea <$> df_grouped_raw t) ∧
  NoDup (sc_refArea <$> df_grouped_raw t) ∧
  sc_refArea <$> df_grouped_raw t = sc_refArea <$> df_grouped_raw t' ∧
  sc_refArea <$> df_grouped t = sc_refArea <$> df_grouped t' ∧
  bx_refArea <$> df_box_grouped t = bx_refArea <$> df_box_grouped t'.
Proof.
  intros Hp.
  assert (∀ u, sc_refArea <$> df_grouped_raw u = group_keys (refArea <$> u))
    as Hraw.
  { intros u. unfold df_grouped_raw. rewrite <- list_fmap_compose.
    apply (groupby_keys refArea). }
  assert (group_keys (refArea <$> t) = group_keys (refArea <$> t')) as E
    by (apply group_keys_Permutation; by rewrite Hp).
  rewrite !Hraw, !df_grouped_names, !df_box_grouped_names, E.
  split; [apply group_keys_Sorted|]. split; [apply group_keys_NoDup|]. done.
Qed.

Lemma X12_record_order_is_the_key_order_witness :
  sc_refArea <$> df_grouped scenario
    = sc_refArea <$> df_grouped [row2; row1; row3].
Proof.
  apply (X12_record_order_is_the_key_order scenario [row2; row1; row3]).
  apply perm_swap.
Defined.

(** ** Selection, after the sliders *)

Section Selection.
Context {A : Type} (key : A → string).
Implicit Types (g : list A) (sel : list string).

Lemma isin_elem g sel (r : A) :
  r ∈ filter (λ r, isin (key r) sel) g ↔ r ∈ g ∧ key r ∈ sel.
Proof.
  rewrite list_elem_of_filter. unfold isin.
  rewrite Is_true_true, bool_decide_eq_true. tauto.
Qed.

Lemma isin_ext g sel sel' :
  (∀ k, k ∈ sel ↔ k ∈ sel') →
  filter (λ r, isin (key r) sel) g = filter (λ r, isin (key r) sel') g.
Proof.
  intros Hs. apply list_filter_iff. intros r. unfold isin.
  by rewrite !Is_true_true, !bool_decide_eq_true.
Qed.

Lemma isin_twice g sel sel' :
  filter (λ r, isin (key r) sel') (filter (λ r, isin (key r) sel) g)
    = filter (λ r, isin (key r) (list_intersection sel sel')) g.
Proof.
  rewrite list_filter_filter. apply list_filter_iff. intros r. unfold isin.
  rewrite !Is_true_true, !bool_decide_eq_true, list_elem_of_intersection.
  tauto.
Qed.

End Selection.

(** X13: a selection only hides records.  Every record of a chart table
    is the record of a group of rows that passed the filter, and its name
    is selected; so selecting a governorate brings back nothing that the
    sliders or the checkbox have removed. *)
Theorem X13_selection_cannot_undo_the_filter (raw : list Row) (w : Widgets) :
  let run := script raw w in
  (∀ r, r ∈ run_filtered_scatter_data run →
     sc_refArea r ∈ selected_governorates w ∧
     ∃ k rs, r = scatter_record k rs ∧ rs ≠ [] ∧
             ∀ x, x ∈ rs ↔ x ∈ run_df_filtered run ∧ refArea x = Some k) ∧
  (∀ r, r ∈ run_filtered_box_data run →
     bx_refArea r ∈ selected_box_governorates w ∧
     ∃ k rs, r = box_record k rs ∧ rs ≠ [] ∧
             ∀ x, x ∈ rs ↔ x ∈ run_df_filtered run ∧ refArea x = Some k).
Proof.
  intros run. subst run. unfold script.
  cbn [run_df_filtered run_filtered_scatter_data run_filtered_box_data].
  set (t := df_filtered _ _ _ _).
  split; intros r [Hr Hsel]%isin_elem; (split; [exact Hsel|]).
  - rewrite df_grouped_records in Hr.
    apply list_elem_of_fmap in Hr as ([k rs] & -> & Hg).
    exists k, rs. split; [done|]. split; [by eapply groupby_nonempty|].
    apply groupby_elem in Hg as [_ ->]. intros x.
    rewrite list_elem_of_filter. tauto.
  - rewrite df_box_grouped_records in Hr.
    apply list_elem_of_fmap in Hr as ([k rs] & -> & Hg).
    exists k, rs. split; [done|]. split; [by eapply groupby_nonempty|].
    apply groupby_elem in Hg as [_ ->]. intros x.
    rewrite list_elem_of_filter. tauto.
Qed.

(** X14: a selection keeps exactly the records whose name it holds, in
    their order; selecting twice is selecting the names common to both
    selections; two records with the same name are kept or hidden
    together; and only the names a selection holds matter, not their
    order or repetition. *)
Theorem X14_selection_is_by_name (g : list ScatterRow) (b : list BoxRow)
    (sel sel' : list string) :
  (∀ r, r ∈ filtered_scatter_data g sel ↔ r ∈ g ∧ sc_refArea r ∈ sel) ∧
  (∀ r, r ∈ filtered_box_data b sel ↔ r ∈ b ∧ bx_refArea r ∈ sel) ∧
  filtered_scatter_data g sel `sublist_of` g ∧
  filtered_box_data b sel `sublist_of` b ∧
  filtered_scatter_data (filtered_scatter_data g sel) sel'
    = filtered_scatter_data g (list_intersection sel sel') ∧
  filtered_box_data (filtered_box_data b sel) sel'
    = filtered_box_data b (list_intersection sel sel') ∧
  (∀ r r', r ∈ g → r' ∈ g → sc_refArea r = sc_refArea r' →
     (r ∈ filtered_scatter_data g sel ↔ r' ∈ filtered_scatter_data g sel)) ∧
  ((∀ k, k ∈ sel ↔ k ∈ sel') →
   filtered_scatter_data g sel = filtered_scatter_data g sel' ∧
   filtered_box_data b sel = filtered_box_data b sel').
Proof.
  unfold filtered_scatter_data, filtered_box_data.
  split; [intros r; apply isin_elem|].
  split; [intros r; apply isin_elem|].
  split; [apply sublist_filter|]. split; [apply sublist_filter|].
  split; [apply isin_twice|]. split; [apply isin_twice|].
  split.
  { intros r r' Hr Hr' E. rewrite !isin_elem, E. tauto. }
  intros Hs. split; by apply isin_ext.
Qed.

(** ** Means of small and of null groups *)

Lemma mean_singleton (c : cell) : mean [c] = c.
Proof.
  destruct c as [x|]; [|done]. unfold mean. simpl. f_equal.
  rewrite Qcplus_0_r. change (Qc_of_Z 1) with 1. apply (right_id 1 Qcdiv).
Qed.



(** X15: a region with a single row in the filtered table is charted
    with that row's own values. *)
Theorem X15_single_row_group (t : list Row) (k : string) (r : Row) :
  filter (λ x, refArea x = Some k) t = [r] →
  mkScatter (short_refArea k)
            (PercentageofEducationlevelofresidents_illeterate r)
            (PercentageofSchooldropout r) ∈ df_grouped t ∧
  mkBox (short_refArea k)
        (PercentageofEducationlevelofresidents_university r)
    ∈ df_box_grouped t.
Proof.
  intros E.
  assert ((k, [r]) ∈ groupby refArea t) as Hg.
  { apply groupby_elem. split; [|done]. apply groupby_key_present.
    assert (r ∈ filter (λ x, refArea x = Some k) t) as Hr
      by (rewrite E; left).
    apply list_elem_of_filter in Hr as [? ?]. eauto. }
  rewrite df_grouped_records, df_box_grouped_records. split.
  - apply list_elem_of_fmap. exists (k, [r]). split; [|done].
    unfold scatter_record. simpl. by rewrite !mean_singleton.
  - apply list_elem_of_fmap. exists (k, [r]). split; [|done].
    unfold box_record. simpl. by rewrite !mean_singleton.
Qed.

Lemma X15_single_row_group_witness :
  mkScatter "Y" (num 4) (num 9) ∈ df_grouped scenario.
Proof.
  assert (filter (λ x, refArea x = Some "B/Y") scenario = [row3]) as E
    by by_evaluation.
  destruct (X15_single_row_group scenario "B/Y" row3 E) as [H _].
  exact H.
Defined.


Lemma first_run_shows_everything_witness :
  run_df_filtered (script scenario (default_widgets scenario)) = scenario.
Proof.
  destruct (first_run_shows_everything scenario) as (H & _ & _).
  - intros r Hr.
    apply Forall_forall with (x := r) (l := dropna scenario); [|done].
    vm_compute. repeat constructor; by eexists.
  - exact H.
Defined.
